(** * Mnemosync: analysis, fallback and extraction core

    A shallow embedding of the conversation / vision analysis pipeline of
    the Mnemosync companion app (ConversationRecorder.tsx, gemini.ts,
    memoryDatabase.ts) and the properties its specification states.

    Modelling conventions.
    - JavaScript strings are sequences of code units; the embedding uses
      [string] and therefore covers the code units below 256 (Latin-1).
      On that domain [toLowerCase], [trim], [\s], [\b], [\d] and [.] are
      modelled exactly as ECMAScript defines them.
    - Regular expressions are transcribed into a small abstract syntax and
      run by a backtracking matcher that follows the ECMAScript matcher
      (leftmost alternative first, greedy and lazy quantifiers, capture
      reset inside quantifiers, look-ahead).
    - A [Date] is its time value in milliseconds, read in the local time
      zone, which is taken to have a fixed offset; the calendar functions
      are those of ECMAScript (Day, DayFromYear, MakeDay, ...). The range
      limit of time values (TimeClip) is not modelled.
    - Thrown exceptions are values of [JsError] in a sum type.
    - Asynchronous code is modelled in its sequential order of effects. *)

From Stdlib Require Import ZArith NArith Lia Ascii String List Bool.
From stdpp Require Import gmap strings list.

Local Open Scope string_scope.

(** ** JavaScript string primitives *)

Module JsString.

Definition code (c : ascii) : N := N_of_ascii c.

Definition isDigit (c : ascii) : bool :=
  ((48 <=? code c) && (code c <=? 57))%N.

Definition isUpper (c : ascii) : bool :=
  ((65 <=? code c) && (code c <=? 90))%N.

Definition isLower (c : ascii) : bool :=
  ((97 <=? code c) && (code c <=? 122))%N.

Definition isLetter (c : ascii) : bool := isUpper c || isLower c.

(** [\w]: ASCII letters, digits and underscore. *)
Definition isWordChar (c : ascii) : bool :=
  isLetter c || isDigit c || (code c =? 95)%N.

(** [\s] and the characters removed by [trim]: TAB, LF, VT, FF, CR, SP, NBSP. *)
Definition isSpace (c : ascii) : bool :=
  (((9 <=? code c) && (code c <=? 13)) || (code c =? 32) || (code c =? 160))%N.

(** Line terminators, which [.] does not match without the [s] flag. *)
Definition isLineTerminator (c : ascii) : bool :=
  ((code c =? 10) || (code c =? 13))%N.

Definition lowerChar (c : ascii) : ascii :=
  if (isUpper c
      || ((192 <=? code c) && (code c <=? 222) && negb (code c =? 215)))%N
  then ascii_of_N (code c + 32) else c.

(** The canonical form used by case-insensitive matching: only ASCII letters
    are folded, a code unit of 128 or more never folds onto an ASCII one. *)
Definition foldCase (c : ascii) : ascii :=
  if isLower c then ascii_of_N (code c - 32) else c.

Fixpoint toLowerCase (s : string) : string :=
  match s with
  | EmptyString => EmptyString
  | String c s' => String (lowerChar c) (toLowerCase s')
  end.

Fixpoint startsWith (s p : string) : bool :=
  match p, s with
  | EmptyString, _ => true
  | String a p', String b s' => Ascii.eqb a b && startsWith s' p'
  | String _ _, EmptyString => false
  end.

Fixpoint includes (s p : string) : bool :=
  startsWith s p
  || match s with
     | EmptyString => false
     | String _ s' => includes s' p
     end.

Fixpoint dropN (n : nat) (s : string) : string :=
  match n, s with
  | O, _ => s
  | S n', String _ s' => dropN n' s'
  | S _, EmptyString => EmptyString
  end.

Fixpoint takeN (n : nat) (s : string) : string :=
  match n, s with
  | O, _ => EmptyString
  | S n', String c s' => String c (takeN n' s')
  | S _, EmptyString => EmptyString
  end.

(** [s.substring(a, b)] for [a <= b]. *)
Definition substring (a b : nat) (s : string) : string :=
  takeN (b - a) (dropN a s).

Fixpoint trimStart (s : string) : string :=
  match s with
  | String c s' => if isSpace c then trimStart s' else s
  | EmptyString => EmptyString
  end.

Fixpoint rev_string (s acc : string) : string :=
  match s with
  | EmptyString => acc
  | String c s' => rev_string s' (String c acc)
  end.

Definition trimEnd (s : string) : string :=
  rev_string (trimStart (rev_string s EmptyString)) EmptyString.

Definition trim (s : string) : string := trimEnd (trimStart s).

(** [arr.join(sep)]. *)
Fixpoint join (sep : string) (l : list string) : string :=
  match l with
  | [] => EmptyString
  | [x] => x
  | x :: l' => x ++ sep ++ join sep l'
  end.

(** [[...new Set(l)]]: first occurrences, in order. *)
Fixpoint uniq (seen l : list string) : list string :=
  match l with
  | [] => []
  | x :: l' =>
      if bool_decide (x ∈ seen) then uniq seen l' else x :: uniq (x :: seen) l'
  end.

(** [parseInt(s)] on the decimal strings the callers pass: leading white
    space, then the longest run of digits; [None] stands for NaN. *)
Fixpoint digitsValue (s : string) (acc : option Z) : option Z :=
  match s with
  | String c s' =>
      if isDigit c
      then digitsValue s'
             (Some (10 * default 0%Z acc + Z.of_N (code c - 48))%Z)
      else acc
  | EmptyString => acc
  end.

Definition parseInt (s : string) : option Z :=
  match trimStart s with
  | String "-" s' => Z.opp <$> digitsValue s' None
  | String "+" s' => digitsValue s' None
  | s' => digitsValue s' None
  end.

End JsString.

(** ** Regular expressions

    The patterns of the source are transcribed into [regex]; [rmatch] is the
    backtracking matcher in continuation style. *)

Module Regex.
Import JsString.

Inductive regex : Type :=
| Eps                                    (* empty pattern *)
| Chr (p : ascii -> bool)                (* one character of a class *)
| Seq (r1 r2 : regex)                    (* r1 r2 *)
| Alt (r1 r2 : regex)                    (* r1|r2 *)
| Rep (greedy : bool) (lo : nat) (hi : option nat) (r : regex)
                                         (* r{lo,hi}, r{lo,} and lazy forms *)
| Grp (n : nat) (r : regex)              (* n-th capturing group *)
| Look (r : regex)                       (* (?=r) *)
| WordB                                  (* \b *)
| Bol                                    (* ^ *)
| Eol.                                   (* $ *)

(** Matcher state: the character before the current position, the rest of
    the input, the current index and the captures as (start, end). *)
Record mstate : Type := MState {
  prev : option ascii;
  rest : string;
  pos : nat;
  caps : gmap nat (nat * nat)
}.

Definition setCap (n : nat) (a b : nat) (x : mstate) : mstate :=
  MState (prev x) (rest x) (pos x) (<[n := (a, b)]> (caps x)).

Definition withCaps (c : gmap nat (nat * nat)) (x : mstate) : mstate :=
  MState (prev x) (rest x) (pos x) c.

Fixpoint groups (r : regex) : list nat :=
  match r with
  | Seq r1 r2 | Alt r1 r2 => groups r1 ++ groups r2
  | Rep _ _ _ r' | Look r' => groups r'
  | Grp n r' => n :: groups r'
  | _ => []
  end.

Definition clearCaps (ns : list nat) (x : mstate) : mstate :=
  withCaps (foldr delete (caps x) ns) x.

Definition atWord (o : option ascii) : bool :=
  match o with Some c => isWordChar c | None => false end.

Definition next (s : string) : option ascii :=
  match s with String c _ => Some c | EmptyString => None end.

Definition orElse {A} (a b : option A) : option A :=
  match a with Some _ => a | None => b end.

(** The repetition loop of the ECMAScript RepeatMatcher, over the matcher
    [m] of the repeated pattern and its groups [gs]. [n] counts the
    iterations still allowed, [lo] those still required; an iteration that
    starts once the lower bound is met and consumes nothing is rejected. *)
Fixpoint repLoop (m : (mstate -> option mstate) -> mstate -> option mstate)
  (gs : list nat) (greedy : bool) (n lo : nat)
  (k : mstate -> option mstate) (x : mstate) {struct n} : option mstate :=
  match n with
  | O => k x
  | S n' =>
      let d := fun y : mstate =>
        if (lo =? 0)%nat && (pos y =? pos x)%nat then None
        else repLoop m gs greedy n' (Nat.pred lo) k y in
      let xr := clearCaps gs x in
      if (0 <? lo)%nat then m d xr
      else if greedy then orElse (m d xr) (k x)
      else orElse (k x) (m d xr)
  end.

(** The matcher. An unbounded repetition runs at most [lo] iterations plus
    one for every character left, since each further iteration consumes
    one at least. *)
Fixpoint rmatch (r : regex) (k : mstate -> option mstate) (x : mstate)
  : option mstate :=
  match r with
  | Eps => k x
  | Chr p =>
      match rest x with
      | String c s' =>
          if p c then k (MState (Some c) s' (S (pos x)) (caps x)) else None
      | EmptyString => None
      end
  | Seq r1 r2 => rmatch r1 (rmatch r2 k) x
  | Alt r1 r2 => orElse (rmatch r1 k x) (rmatch r2 k x)
  | Rep greedy lo hi r' =>
      repLoop (rmatch r') (groups r') greedy
        (match hi with
         | Some h => h
         | None => (lo + String.length (rest x))%nat
         end) lo k x
  | Grp n r' => rmatch r' (fun y => k (setCap n (pos x) (pos y) y)) x
  | Look r' =>
      match rmatch r' Some x with
      | Some y => k (withCaps (caps y) x)
      | None => None
      end
  | WordB =>
      if xorb (atWord (prev x)) (atWord (next (rest x))) then k x else None
  | Bol => if (pos x =? 0)%nat then k x else None
  | Eol => match rest x with EmptyString => k x | _ => None end
  end.

(** The groups that every match of the pattern sets. *)
Fixpoint must (r : regex) : list nat :=
  match r with
  | Seq r1 r2 => must r1 ++ must r2
  | Grp n r' => n :: must r'
  | _ => []
  end.

(** *** Pattern combinators *)

Definition seq (rs : list regex) : regex := foldr Seq Eps rs.

Definition alt (rs : list regex) : regex :=
  match rs with
  | [] => Eps
  | r :: rs' => fold_left Alt rs' r
  end.

Definition chr (c : ascii) : regex := Chr (Ascii.eqb c).
Definition chri (c : ascii) : regex :=
  Chr (fun a => Ascii.eqb (foldCase a) (foldCase c)).

Fixpoint lit (s : string) : regex :=
  match s with
  | EmptyString => Eps
  | String c s' => Seq (chr c) (lit s')
  end.

(** A literal under the [i] flag. *)
Fixpoint liti (s : string) : regex :=
  match s with
  | EmptyString => Eps
  | String c s' => Seq (chri c) (liti s')
  end.

Definition opt (r : regex) : regex := Rep true 0 (Some 1%nat) r.
Definition star (r : regex) : regex := Rep true 0 None r.
Definition plus (r : regex) : regex := Rep true 1 None r.
Definition lazyPlus (r : regex) : regex := Rep false 1 None r.
Definition between (lo hi : nat) (r : regex) : regex := Rep true lo (Some hi) r.

Definition digit : regex := Chr isDigit.                       (* \d *)
Definition space : regex := Chr isSpace.                       (* \s *)
Definition dot : regex := Chr (fun c => negb (isLineTerminator c)).  (* . *)
Definition dotAll : regex := Chr (fun _ => true).              (* . with s *)

(** *** Running a pattern *)

(** The result of a successful match: index, end and captures. *)
Record mresult : Type := MResult {
  mstart : nat;
  mend : nat;
  mcaps : gmap nat (nat * nat)
}.

Definition matchAt (r : regex) (p : option ascii) (s : string) (i : nat)
  : option mresult :=
  match rmatch r Some (MState p s i ∅) with
  | Some y => Some (MResult i (pos y) (caps y))
  | None => None
  end.

(** Leftmost match at or after the current position. *)
Fixpoint search (r : regex) (p : option ascii) (s : string) (i : nat)
  : option mresult :=
  match matchAt r p s i with
  | Some m => Some m
  | None =>
      match s with
      | String c s' => search r (Some c) s' (S i)
      | EmptyString => None
      end
  end.

(** [m[n]] of a match array over the subject [s]: [None] is [undefined]. *)
Definition group (s : string) (m : mresult) (n : nat) : option string :=
  match n with
  | O => Some (substring (mstart m) (mend m) s)
  | _ => (fun '(a, b) => substring a b s) <$> (mcaps m !! n)
  end.

(** [s.match(r)] and [r.exec(s)] for a pattern without the [g] flag. *)
Definition exec (r : regex) (s : string) : option mresult :=
  search r None s 0.

(** All matches, left to right, each search resuming where the previous
    match ended: [s.match(r)] with the [g] flag and the loop
    [while ((m = r.exec(s)) !== null)]. [skip] counts the characters still
    covered by the previous match. The patterns matched this way in the
    source never match the empty string. *)
Fixpoint scan (r : regex) (p : option ascii) (s : string) (i skip : nat)
  : list mresult :=
  let continue := fun skip' =>
    match s with
    | String c s' => scan r (Some c) s' (S i) skip'
    | EmptyString => []
    end in
  match skip with
  | S skip' => continue skip'
  | O =>
      match matchAt r p s i with
      | Some m => m :: continue (Nat.pred (mend m - i))
      | None => continue O
      end
  end.

Definition matchAll (r : regex) (s : string) : list mresult :=
  scan r None s 0 0.

(** [s.split(r)] for a pattern without capturing groups: the ECMAScript
    loop with [p] the start of the pending piece and [q] the position
    tried. *)
Fixpoint splitLoop (r : regex) (whole : string) (pr : option ascii)
  (s : string) (q p skip : nat) : list string :=
  match s with
  | EmptyString => [substring p q whole]
  | String c s' =>
      match skip with
      | S skip' => splitLoop r whole (Some c) s' (S q) p skip'
      | O =>
          match matchAt r pr s q with
          | Some m =>
              if (mend m =? p)%nat
              then splitLoop r whole (Some c) s' (S q) p O
              else substring p q whole
                   :: splitLoop r whole (Some c) s' (S q) (mend m)
                        (Nat.pred (mend m - q))
          | None => splitLoop r whole (Some c) s' (S q) p O
          end
      end
  end.

Definition split (r : regex) (s : string) : list string :=
  match s with
  | EmptyString =>
      match matchAt r None EmptyString 0 with
      | Some _ => []
      | None => [EmptyString]
      end
  | _ => splitLoop r s None s 0 0 0
  end.

(** [s.replace(r, '')] for a pattern without the [g] flag. *)
Definition removeFirst (r : regex) (s : string) : string :=
  match exec r s with
  | Some m => substring 0 (mstart m) s ++ dropN (mend m) s
  | None => s
  end.

End Regex.

(** ** Thrown values *)

(** A thrown value as the handlers see it: its [message] property, which may
    be undefined. *)
Record JsError : Type := Thrown { message : option string }.

Definition TypeError (m : string) : JsError := Thrown (Some m).

(** A computation that returns a value or throws. *)
Definition Result (A : Type) : Type := JsError + A.

Definition ret {A} (a : A) : Result A := inr a.
Definition throw {A} (e : JsError) : Result A := inl e.
Definition bind {A B} (m : Result A) (f : A -> Result B) : Result B :=
  match m with
  | inl e => inl e
  | inr a => f a
  end.

Notation "x <- m ;; k" := (bind m (fun x => k))
  (at level 100, m at next level, right associativity).

(** ** Dates (ECMAScript time values and calendar functions) *)

Module JsDate.
Local Open Scope Z_scope.

Definition Date : Type := Z.

Definition msPerDay : Z := 86400000.

Definition Day (t : Z) : Z := t / msPerDay.
Definition TimeWithinDay (t : Z) : Z := t mod msPerDay.

Definition InLeapYear (y : Z) : bool :=
  (y mod 4 =? 0) && (negb (y mod 100 =? 0) || (y mod 400 =? 0)).

Definition DayFromYear (y : Z) : Z :=
  365 * (y - 1970) + (y - 1969) / 4 - (y - 1901) / 100 + (y - 1601) / 400.

(** The largest year whose first day is not after day [d]. *)
Definition YearFromDay (d : Z) : Z :=
  let y := 1970 + (400 * d) / 146097 in
  if DayFromYear (y + 1) <=? d then y + 1
  else if d <? DayFromYear y then y - 1
  else y.

Definition YearFromTime (t : Z) : Z := YearFromDay (Day t).

Definition DayWithinYear (t : Z) : Z := Day t - DayFromYear (YearFromTime t).

(** Day number within the year of the first day of month [m] (0 = January). *)
Definition monthStart (leap : bool) (m : Z) : Z :=
  let l := if leap then 1 else 0 in
  if m <=? 0 then 0
  else if m =? 1 then 31
  else if m =? 2 then 59 + l
  else if m =? 3 then 90 + l
  else if m =? 4 then 120 + l
  else if m =? 5 then 151 + l
  else if m =? 6 then 181 + l
  else if m =? 7 then 212 + l
  else if m =? 8 then 243 + l
  else if m =? 9 then 273 + l
  else if m =? 10 then 304 + l
  else 334 + l.

Definition MonthFromTime (t : Z) : Z :=
  let leap := InLeapYear (YearFromTime t) in
  let d := DayWithinYear t in
  if d <? monthStart leap 1 then 0
  else if d <? monthStart leap 2 then 1
  else if d <? monthStart leap 3 then 2
  else if d <? monthStart leap 4 then 3
  else if d <? monthStart leap 5 then 4
  else if d <? monthStart leap 6 then 5
  else if d <? monthStart leap 7 then 6
  else if d <? monthStart leap 8 then 7
  else if d <? monthStart leap 9 then 8
  else if d <? monthStart leap 10 then 9
  else if d <? monthStart leap 11 then 10
  else 11.

Definition DateFromTime (t : Z) : Z :=
  DayWithinYear t
  - monthStart (InLeapYear (YearFromTime t)) (MonthFromTime t) + 1.

Definition WeekDay (t : Z) : Z := (Day t + 4) mod 7.

Definition MakeDay (year month date : Z) : Z :=
  let ym := year + month / 12 in
  let mn := month mod 12 in
  DayFromYear ym + monthStart (InLeapYear ym) mn + date - 1.

Definition MakeDate (day time : Z) : Z := day * msPerDay + time.

(** *** The methods of [Date] used by the parser *)

Definition getFullYear (d : Date) : Z := YearFromTime d.
Definition getMonth (d : Date) : Z := MonthFromTime d.
Definition getDate (d : Date) : Z := DateFromTime d.
Definition getDay (d : Date) : Z := WeekDay d.

(** [d.setDate(n)] on a copy of [d]. *)
Definition setDate (d : Date) (n : Z) : Date :=
  MakeDate (MakeDay (YearFromTime d) (MonthFromTime d) n) (TimeWithinDay d).

(** [d.setMonth(m)] on a copy of [d]. *)
Definition setMonth (d : Date) (m : Z) : Date :=
  MakeDate (MakeDay (YearFromTime d) m (DateFromTime d)) (TimeWithinDay d).

(** [new Date(year, month, day)]: local midnight; a year from 0 to 99 is
    read as 1900 + year. *)
Definition newDate (year month day : Z) : Date :=
  let yr := if (0 <=? year) && (year <=? 99) then 1900 + year else year in
  MakeDate (MakeDay yr month day) 0.

(** The date [n] calendar days after [d], at the same time of day. *)
Definition addDays (d : Date) (n : Z) : Date := d + n * msPerDay.

End JsDate.

(** ** DateExpressionParser: [parseDateFromText] *)

Module DateParser.
Import JsString Regex JsDate.
Local Open Scope Z_scope.

Definition months : gmap string Z :=
  list_to_map
    [("jan", 0); ("january", 0); ("feb", 1); ("february", 1); ("mar", 2);
     ("march", 2); ("apr", 3); ("april", 3); ("may", 4); ("jun", 5);
     ("june", 5); ("jul", 6); ("july", 6); ("aug", 7); ("august", 7);
     ("sep", 8); ("sept", 8); ("september", 8); ("oct", 9); ("october", 9);
     ("nov", 10); ("november", 10); ("dec", 11); ("december", 11)].

Definition dayNames : list string :=
  ["sunday"; "monday"; "tuesday"; "wednesday"; "thursday"; "friday";
   "saturday"].

(** jan(?:uary)?|feb(?:ruary)?|...|dec(?:ember)? under the [i] flag *)
Definition monthName : regex :=
  alt [Seq (liti "jan") (opt (liti "uary"));
       Seq (liti "feb") (opt (liti "ruary"));
       Seq (liti "mar") (opt (liti "ch"));
       Seq (liti "apr") (opt (liti "il"));
       liti "may";
       Seq (liti "jun") (opt (liti "e"));
       Seq (liti "jul") (opt (liti "y"));
       Seq (liti "aug") (opt (liti "ust"));
       Seq (liti "sep") (Seq (opt (liti "t")) (opt (liti "ember")));
       Seq (liti "oct") (opt (liti "ober"));
       Seq (liti "nov") (opt (liti "ember"));
       Seq (liti "dec") (opt (liti "ember"))].

(** (?:st|nd|rd|th)? *)
Definition ordinal : regex :=
  opt (alt [liti "st"; liti "nd"; liti "rd"; liti "th"]).

(** /\b(month)\s*(\d{1,2})(?:st|nd|rd|th)?\b/i *)
Definition monthDayPattern : regex :=
  seq [WordB; Grp 1 monthName; star space; Grp 2 (between 1 2 digit);
       ordinal; WordB].

(** /\b(\d{1,2})(?:st|nd|rd|th)?\s*(month)\b/i *)
Definition dayMonthPattern : regex :=
  seq [WordB; Grp 1 (between 1 2 digit); ordinal; star space;
       Grp 2 monthName; WordB].

(** A method call on [m[n]]: a TypeError when the group is undefined. *)
Definition required (o : option string) : Result string :=
  match o with
  | Some s => ret s
  | None => throw (TypeError "Cannot read properties of undefined")
  end.

(** The loop over [dayNames]: the index of the first name that occurs. *)
Fixpoint findDay (lower : string) (names : list string) (i : Z) : option Z :=
  match names with
  | [] => None
  | n :: names' =>
      if includes lower n then Some i else findDay lower names' (i + 1)
  end.

(** The body shared by the "Month Day" and "Day Month" branches: [Some d]
    when the branch returns [d], [None] when control falls through. *)
Definition fromMonthAndDay (now : Date) (monthStr : string) (day : option Z)
  : option Date :=
  match months !! monthStr, day with
  | Some month, Some day =>
      if (1 <=? day) && (day <=? 31) then
        let year := getFullYear now in
        let targetDate := newDate year month day in
        let year := if targetDate <? now then year + 1 else year in
        Some (newDate year month day)
      else None
  | _, _ => None
  end.

Definition monthDayBranch (text : string) (now : Date)
  : Result (option Date) :=
  match exec monthDayPattern text with
  | Some m =>
      g1 <- required (group text m 1) ;;
      let monthStr := substring 0 3 (toLowerCase g1) in
      let day := group text m 2 ≫= parseInt in
      ret (fromMonthAndDay now monthStr day)
  | None => ret None
  end.

Definition dayMonthBranch (text : string) (now : Date)
  : Result (option Date) :=
  match exec dayMonthPattern text with
  | Some m =>
      let day := group text m 1 ≫= parseInt in
      g2 <- required (group text m 2) ;;
      let monthStr := substring 0 3 (toLowerCase g2) in
      ret (fromMonthAndDay now monthStr day)
  | None => ret None
  end.

Section Parser.

(** [new Date(text)] for a string: the time value, [None] for an invalid
    date. The accepted formats are left to the JavaScript engine. *)
Variable Date_parse : string -> option Date.

Definition parseDateFromText (text : string) (now : Date) : Result Date :=
  let lower := toLowerCase text in
  if includes lower "today" then ret now
  else if includes lower "tomorrow" then ret (setDate now (getDate now + 1))
  else if includes lower "day after tomorrow"
  then ret (setDate now (getDate now + 2))
  else if includes lower "next week" then ret (setDate now (getDate now + 7))
  else if includes lower "next month"
  then ret (setMonth now (getMonth now + 1))
  else
    match findDay lower dayNames 0 with
    | Some i =>
        let currentDay := getDay now in
        let daysUntil := i - currentDay in
        let daysUntil := if daysUntil <=? 0 then daysUntil + 7 else daysUntil in
        ret (setDate now (getDate now + daysUntil))
    | None =>
        r1 <- monthDayBranch text now ;;
        match r1 with
        | Some d => ret d
        | None =>
            r2 <- dayMonthBranch text now ;;
            match r2 with
            | Some d => ret d
            | None =>
                match Date_parse text with
                | Some standardDate => ret standardDate
                | None => ret now
                end
            end
        end
    end.

End Parser.

End DateParser.

(** ** Loops with early exit through exceptions *)

(** [arr.forEach(x => { ... })] over an accumulator, in the [Result] monad. *)
Fixpoint foldM {A B} (f : B -> A -> Result B) (b : B) (l : list A)
  : Result B :=
  match l with
  | [] => ret b
  | x :: l' => b' <- f b x ;; foldM f b' l'
  end.

(** ** HeuristicExtractor: task extraction from a transcript *)

Module Heuristic.
Import JsString Regex DateParser.

(** The two kind markers put in front of every mention, as they stand in
    the source text. Some of their code units lie outside the modelled
    range; the markers are only ever prepended and compared, so they are
    carried here as the bytes of the source file. *)
Definition dateMarker : string := "üìÖ ".
Definition actionMarker : string := "‚úÖ ".

(** /\b(?:and|then|also)\b/i *)
Definition conjunction : regex :=
  seq [WordB; alt [liti "and"; liti "then"; liti "also"]; WordB].

(** [a-zA-Z\s] *)
Definition letterOrSpace : regex := Chr (fun c => isLetter c || isSpace c).

Definition weekdayName : regex :=
  alt [liti "monday"; liti "tuesday"; liti "wednesday"; liti "thursday";
       liti "friday"; liti "saturday"; liti "sunday"].

Definition fullMonthName : regex :=
  alt [liti "january"; liti "february"; liti "march"; liti "april";
       liti "may"; liti "june"; liti "july"; liti "august";
       liti "september"; liti "october"; liti "november"; liti "december"].

Definition shortMonthName : regex :=
  alt [liti "jan"; liti "feb"; liti "mar"; liti "apr"; liti "may";
       liti "jun"; liti "jul"; liti "aug"; liti "sep"; liti "oct";
       liti "nov"; liti "dec"].

(** tomorrow|tonight|today|next\s+(?:week|month) *)
Definition relativeTerm : regex :=
  alt [liti "tomorrow"; liti "tonight"; liti "today";
       seq [liti "next"; plus space; alt [liti "week"; liti "month"]]].

(** The alternation [timeTerms]. *)
Definition timeTerms : regex :=
  alt [relativeTerm; weekdayName; fullMonthName; shortMonthName].

(** \b([a-zA-Z\s]{3,30})\s+(on|at|by|for|this)\s+
    (timeTerms(?:\s+\d{1,2}(?:st|nd|rd|th)?)?)   with flags gi *)
Definition dateRegex : regex :=
  seq [WordB; Grp 1 (between 3 30 letterOrSpace); plus space;
       Grp 2 (alt [liti "on"; liti "at"; liti "by"; liti "for"; liti "this"]);
       plus space;
       Grp 3 (Seq timeTerms
                (opt (seq [plus space; between 1 2 digit; ordinal])))].

(** /\b(?:remember to|don't forget to|remind me to)\s+([a-zA-Z\s]{3,40})/gi *)
Definition actionRegex : regex :=
  seq [WordB;
       alt [liti "remember to"; liti "don't forget to"; liti "remind me to"];
       plus space; Grp 1 (between 3 40 letterOrSpace)].

Definition stopwords : list string := ["what"; "when"; "how"; "going"].

(** How a found task enters [foundTasks]. *)
Definition push (found : list string) (task : string) : list string :=
  found ++ [task].

Definition pushNew (found : list string) (task : string) : list string :=
  if bool_decide (task ∈ found) then found else found ++ [task].

Section Segment.

Variable add : list string -> string -> list string.

Definition dateTask (seg : string) (found : list string) (m : mresult)
  : Result (list string) :=
  g1 <- required (group seg m 1) ;;
  g3 <- required (group seg m 3) ;;
  let taskName := trim g1 in
  let timeInfo := trim g3 in
  if (2 <? String.length taskName)%nat
     && negb (bool_decide (toLowerCase taskName ∈ stopwords))
  then ret (add found (dateMarker ++ taskName ++ " on " ++ timeInfo))
  else ret found.

Definition actionTask (seg : string) (found : list string) (m : mresult)
  : Result (list string) :=
  g1 <- required (group seg m 1) ;;
  ret (add found (actionMarker ++ trim g1)).

(** The body of [segments.forEach]. *)
Definition segmentTasks (found : list string) (segment : string)
  : Result (list string) :=
  let cleanSegment := trim segment in
  match cleanSegment with
  | EmptyString => ret found
  | _ =>
      found <- foldM (dateTask cleanSegment) found
                 (matchAll dateRegex cleanSegment) ;;
      foldM (actionTask cleanSegment) found
        (matchAll actionRegex cleanSegment)
  end.

End Segment.

(** Real-time task extraction of [handleSpeechResult]: the tasks handed to
    [onDateDetected], in order. *)
Definition extractTasks (transcript : string) : Result (list string) :=
  foldM (segmentTasks push) [] (split conjunction transcript).

(** *** Extraction when listening stops ([toggleListening]) *)

(** The three [simpleDatePatterns]. *)
Definition simpleDatePatterns : list regex :=
  [seq [WordB; Grp 1 fullMonthName; plus space; between 1 2 digit;
        opt (Grp 2 (alt [liti "st"; liti "nd"; liti "rd"; liti "th"]));
        WordB];
   seq [WordB; Grp 1 relativeTerm; WordB];
   seq [WordB; Grp 1 weekdayName; WordB]].

(** [words.slice(-3)] *)
Definition lastThree (l : list string) : list string :=
  drop (length l - 3) l.

Definition simpleDateTask (fullText : string) (found : list string)
  (m : mresult) : list string :=
  let dateStr := substring (mstart m) (mend m) fullText in
  if existsb (fun t => includes (toLowerCase t) (toLowerCase dateStr)) found
  then found
  else
    let index := mstart m in
    let prefix := trim (substring (index - 30) index fullText) in
    let words :=
      filter (fun w => (2 < String.length w)%nat) (split (chr " ") prefix) in
    let context := join " " (lastThree words) in
    let task :=
      if (3 <? String.length context)%nat
      then dateMarker ++ context ++ " on " ++ dateStr
      else dateMarker ++ "Action on " ++ dateStr in
    pushNew found task.

(** The tasks handed to [onDateDetected] when listening stops, from the
    texts of the recorded turns. *)
Definition extractTasksOnStop (texts : list string) : Result (list string) :=
  let fullText := join " " texts in
  found <- foldM (segmentTasks pushNew) [] (split conjunction fullText) ;;
  ret (fold_left
         (fun found pattern =>
            fold_left (simpleDateTask fullText) (matchAll pattern fullText)
              found)
         simpleDatePatterns found).

End Heuristic.

(** ** Model calls with a call log *)

(** The tiers of the fallback chain that reach a model. The tag is ghost
    state: it is written to the call log and read by nothing else. *)
Inductive Tier : Type := Primary | Backup.

Global Instance Tier_eq_dec : EqDecision Tier.
Proof. solve_decision. Defined.

(** What is handed to [generateContent]. *)
Record Request : Type := MkRequest {
  prompt : string;
  inlineData : option string   (* base64 JPEG data, when an image is sent *)
}.

(** A model handle as its callers use it: [generateContent] followed by
    reading the response text, which returns the text or throws. *)
Definition Model : Type := Request -> Result string.

(** Computations that call models: a [Result] together with the log of the
    calls made so far, oldest first. *)
Definition Run (A : Type) : Type := list Tier -> Result A * list Tier.

Definition unit_run {A} (a : A) : Run A := fun log => (inr a, log).
Definition throw_run {A} (e : JsError) : Run A := fun log => (inl e, log).
Definition lift_run {A} (r : Result A) : Run A := fun log => (r, log).
Definition bind_run {A B} (m : Run A) (f : A -> Run B) : Run B :=
  fun log =>
    match m log with
    | (inr a, log') => f a log'
    | (inl e, log') => (inl e, log')
    end.

(** [try { m } catch (e) { h e }] *)
Definition try_catch {A} (m : Run A) (h : JsError -> Run A) : Run A :=
  fun log =>
    match m log with
    | (inr a, log') => (inr a, log')
    | (inl e, log') => h e log'
    end.

(** One call of [model.generateContent], recorded in the log. *)
Definition generateContent (t : Tier) (model : Model) (req : Request)
  : Run string :=
  fun log => (model req, (log ++ [t])%list).

Notation "x <~ m ;; k" := (bind_run m (fun x => k))
  (at level 100, m at next level, right associativity).

Definition LF : string := String "010" EmptyString.
Definition DQ : string := String "034" EmptyString.
Definition quoted (s : string) : string := DQ ++ s ++ DQ.

(** ** gemini.ts: [getGeminiModel] and [analyzeScene] *)

Module Gemini.
Import JsString Regex.

(** What [new GoogleGenerativeAI(apiKey).getGenerativeModel({ model })] is
    built from. *)
Record GenerativeModel : Type := MkGenerativeModel {
  apiKey : string;
  model : string
}.

Definition defaultModelName : string := "gemini-2.5-flash-lite".

(** [modelName = None] is a call without the second argument. *)
Definition getGeminiModel (apiKey : string) (modelName : option string)
  : GenerativeModel :=
  let modelName := default defaultModelName modelName in
  let realModel := modelName in
  let realModel :=
    if String.eqb modelName "gemini-3-flash-preview"
    then "gemini-1.5-flash" else realModel in
  let realModel :=
    if String.eqb modelName "gemini-2.5-flash-lite"
    then "gemini-1.5-flash" else realModel in
  MkGenerativeModel apiKey realModel.

(** JavaScript values as far as the analysis result needs them. *)
Local Unset Elimination Schemes.
Inductive JsValue : Type :=
| JUndefined
| JNull
| JBool (b : bool)
| JNum (n : Z)
| JStr (s : string)
| JArr (l : list JsValue)
| JObj (o : list (string * JsValue)).
Local Set Elimination Schemes.

(** ToBoolean *)
Definition truthy (v : JsValue) : bool :=
  match v with
  | JUndefined | JNull => false
  | JBool b => b
  | JNum n => negb (n =? 0)%Z
  | JStr s => negb (String.eqb s EmptyString)
  | JArr _ | JObj _ => true
  end.

(** [a || b] *)
Definition jsOr (a b : JsValue) : JsValue := if truthy a then a else b.

(** [o.k]: undefined when the property is absent. *)
Definition getProp (o : gmap string JsValue) (k : string) : JsValue :=
  default JUndefined (o !! k).

Definition scenePrompt (history : string) : string :=
  join LF
    ["You are Mnemosync, an AI companion designed to help people with Alzheimer's disease remember faces and conversations.";
     EmptyString;
     "Analyze this camera image and respond with a JSON object. ";
     EmptyString;
     "Context:";
     history;
     EmptyString;
     "Instructions:";
     "1. Look at the image and determine if there is a person visible.";
     "2. If you see a person, try to match them against the Face Database in the context.";
     "3. If matched, provide their name, relationship, and a brief summary of past conversations.";
     "4. If you see someone new, set personIdentified to true with name as "
       ++ quoted "New Friend" ++ " and suggest getting to know them.";
     "5. Include any routine reminders that seem relevant based on the time of day.";
     EmptyString;
     "IMPORTANT: Respond ONLY with valid JSON, no markdown or extra text.";
     EmptyString;
     "{";
     "  " ++ quoted "personIdentified" ++ ": true or false,";
     "  " ++ quoted "name" ++ ": " ++ quoted "string or null" ++ ",";
     "  " ++ quoted "relation" ++ ": " ++ quoted "string or null" ++ ", ";
     "  " ++ quoted "summary" ++ ": "
       ++ quoted "Brief context about this person or observation" ++ ",";
     "  " ++ quoted "nudges" ++ ": ["
       ++ quoted "Array of routine reminders if any" ++ "]";
     "}"].

(** /\{[\s\S]*\}/ *)
Definition jsonPattern : regex := seq [chr "{"; star dotAll; chr "}"].

(** [e.message?.includes('429') || e.message?.toLowerCase().includes('quota')] *)
Definition quotaTest (e : JsError) : JsValue :=
  match message e with
  | None => JUndefined
  | Some m => JBool (includes m "429" || includes (toLowerCase m) "quota")
  end.

(** [e.message || 'Unknown error'] *)
Definition messageOr (e : JsError) : string :=
  match message e with
  | Some (String c m) => String c m
  | _ => "Unknown error"
  end.

Section Scene.

(** [JSON.parse] on a text that starts with an opening and ends with a
    closing brace: the parsed object, or a SyntaxError. *)
Variable JSON_parse : string -> Result (gmap string JsValue).

Variables (imageBase64 history : string).

(** [None] is the [null] returned when there is no model. *)
Definition executeAnalysis (t : Tier) (model : option Model)
  : Run (option (gmap string JsValue)) :=
  match model with
  | None => unit_run None
  | Some model =>
      text <~ generateContent t model
                (MkRequest (scenePrompt history) (Some imageBase64)) ;;
      match exec jsonPattern text with
      | None => throw_run (Thrown (Some "No valid JSON found in response"))
      | Some jsonMatch =>
          obj <~ lift_run
                   (JSON_parse (substring (mstart jsonMatch) (mend jsonMatch)
                                  text)) ;;
          unit_run (Some obj)
      end
  end.

(** The object returned when both models failed. *)
Definition allFailed (isQuotaExceeded : JsValue) (backupError : JsError)
  : gmap string JsValue :=
  list_to_map
    [("personIdentified", JBool false);
     ("name", JNull);
     ("relation", JNull);
     ("summary", JStr ("Vision Error (All models): " ++ messageOr backupError));
     ("isQuotaExceeded", jsOr isQuotaExceeded (quotaTest backupError));
     ("nudges", JArr [])].

(** The object returned when the primary failed and there is no backup. *)
Definition primaryFailed (isQuotaExceeded : JsValue) (primaryError : JsError)
  : gmap string JsValue :=
  list_to_map
    [("personIdentified", JBool false);
     ("name", JNull);
     ("relation", JNull);
     ("summary",
      JStr (if truthy isQuotaExceeded
            then "Quota Exceeded: Please wait a minute before scanning again."
            else "Vision Error: " ++ messageOr primaryError));
     ("isQuotaExceeded", isQuotaExceeded);
     ("nudges", JArr [])].

Definition analyzeScene (primaryModel backupModel : option Model)
  : Run (option (gmap string JsValue)) :=
  try_catch (executeAnalysis Primary primaryModel)
    (fun primaryError =>
       let isQuotaExceeded := quotaTest primaryError in
       match backupModel with
       | Some _ =>
           try_catch
             (result <~ executeAnalysis Backup backupModel ;;
              unit_run (Some (<["usedBackup" := JBool true]>
                                (default ∅ result))))
             (fun backupError =>
                unit_run (Some (allFailed isQuotaExceeded backupError)))
       | None => unit_run (Some (primaryFailed isQuotaExceeded primaryError))
       end).

End Scene.

End Gemini.

(** ** ConversationRecorder: turns, model tiers and the mock response *)

Module Conversation.
Import JsString Regex JsDate DateParser.

Record ConversationEntry : Type := MkEntry {
  speaker : string;
  text : string;
  timestamp : Date
}.

Record VisitorInfo : Type := MkVisitor {
  name : string;
  relation : string
}.

(** [convos.map(c => `${c.speaker}: "${c.text}"`).join(sep)] *)
Definition transcriptText (sep : string) (convos : list ConversationEntry)
  : string :=
  join sep (map (fun c => speaker c ++ ": " ++ quoted (text c)) convos).

(** [s || fallback] on strings: the empty string is falsy. *)
Definition strOr (s : option string) (fallback : string) : string :=
  match s with
  | Some (String c s') => String c s'
  | _ => fallback
  end.

(** /(?:jan|feb|...|dec)[a-z]*\s+\d{1,2}(?:st|nd|rd|th)?/gi *)
Definition dateRegex : regex :=
  seq [Heuristic.shortMonthName; star (Chr isLetter); plus space;
       between 1 2 digit; ordinal].

(** /((?:today|tomorrow|next week|next month))/i *)
Definition relativeRegex : regex :=
  Grp 1 (alt [liti "today"; liti "tomorrow"; liti "next week";
              liti "next month"]).

(** [text.match(dateRegex)?.map(m => m.trim())] followed by [new Set]:
    [None] when there is no match. *)
Definition uniqueRegexDates (s : string) : option (list string) :=
  match matchAll dateRegex s with
  | [] => None
  | ms => Some (uniq [] (map (fun m => trim (substring (mstart m) (mend m) s))
                           ms))
  end.

(** The local stand-in for a model response. *)
Definition generateMockResponse (text visitorName visitorRelation : string)
  : string :=
  let lowerText := toLowerCase text in
  let mockDate :=
    match uniqueRegexDates text with
    | Some uniqueDates => join ", " uniqueDates
    | None =>
        match exec relativeRegex text with
        | Some relMatch => substring (mstart relMatch) (mend relMatch) text
        | None => "None"
        end
    end in
  let mockAction :=
    if includes lowerText "remind" || includes lowerText "remember"
       || includes lowerText "don't forget"
    then text else "None" in
  LF ++ "VISITOR: " ++ visitorName ++ ", " ++ visitorRelation ++ LF
  ++ "SUMMARY: You had a conversation with " ++ visitorName
  ++ ". You discussed "
  ++ (if String.eqb mockDate "None" then "various topics"
      else "dates: " ++ mockDate)
  ++ "." ++ LF
  ++ "DATES: " ++ mockDate ++ LF
  ++ "ACTIONS: " ++ mockAction ++ LF.

Definition conversationPrompt
  (patientName visitorName visitorRelation conversationText : string)
  : string :=
  join LF
    ["You are helping an Alzheimer's patient named " ++ patientName
       ++ " remember a conversation they just had.";
     EmptyString;
     "The conversation was between:";
     "- " ++ quoted "You" ++ " = " ++ patientName
       ++ " (the Alzheimer's patient)";
     "- " ++ quoted "Visitor" ++ " = " ++ visitorName ++ " ("
       ++ visitorRelation ++ ")";
     EmptyString;
     "Conversation:";
     conversationText;
     EmptyString;
     "Provide a gentle, caring summary for " ++ patientName ++ " explaining:";
     "1. WHO they were talking to (use the visitor's name and relationship if known)";
     "2. WHAT they discussed (key topics in simple terms)";
     "3. Any IMPORTANT things to remember (dates, promises, tasks)";
     EmptyString;
     "Also, double check if the " ++ quoted "You" ++ " and "
       ++ quoted "Visitor"
       ++ " speakers are logically correct. For example, if someone says "
       ++ quoted "Hi User"
       ++ ", they must be the Visitor. If there are mistakes, fix them in the transcript.";
     EmptyString;
     "Respond in this exact format:";
     "VISITOR: [visitor's name and their relationship to " ++ patientName
       ++ ", or " ++ quoted "Unknown visitor" ++ " if not clear]";
     "SUMMARY: [A warm, simple 1-2 sentence summary written as if speaking directly to "
       ++ patientName ++ "]";
     "DATES: [Any dates, appointments, or deadlines mentioned, or "
       ++ quoted "None" ++ "]";
     "ACTIONS: [Any promises made or tasks to do, or " ++ quoted "None" ++ "]";
     "TRANSCRIPT:";
     "[Speaker]: " ++ quoted "Corrected text";
     "..."].

Section Tiers.

Variables (primaryModel backupModel : option Model).
Variable patientName : string.

(** The hybrid tiered mode of [analyzeConversation]: primary model, then
    backup model, then the mock response. The result is the [response]
    text, or [None] when the guard at the top of the function returns. *)
Definition analyzeConversation_response (convos : list ConversationEntry)
  (visitorInfo : option VisitorInfo) (isProcessing : bool)
  : Run (option string) :=
  match primaryModel with
  | None => unit_run None
  | Some primary =>
      if (length convos =? 0)%nat || isProcessing then unit_run None
      else
        let conversationText := transcriptText LF convos in
        let visitorName := strOr (name <$> visitorInfo) "the visitor" in
        let visitorRelation := strOr (relation <$> visitorInfo) "someone" in
        let prompt :=
          conversationPrompt patientName visitorName visitorRelation
            conversationText in
        let mock :=
          generateMockResponse conversationText visitorName visitorRelation in
        response <~
          try_catch (generateContent Primary primary (MkRequest prompt None))
            (fun primaryError =>
               match backupModel with
               | Some backup =>
                   try_catch
                     (generateContent Backup backup (MkRequest prompt None))
                     (fun backupError => unit_run mock)
               | None => unit_run mock
               end) ;;
        unit_run (Some response)
  end.

End Tiers.

End Conversation.

(** ** ResponseParser: the labelled sections of a response *)

Module Response.
Import JsString Regex DateParser Conversation.

(** /VISITOR:\s*(.+?)(?=SUMMARY:|$)/s *)
Definition visitorPattern : regex :=
  seq [lit "VISITOR:"; star space; Grp 1 (lazyPlus dotAll);
       Look (alt [lit "SUMMARY:"; Eol])].

(** /SUMMARY:\s*(.+?)(?=DATES:|$)/s *)
Definition summaryPattern : regex :=
  seq [lit "SUMMARY:"; star space; Grp 1 (lazyPlus dotAll);
       Look (alt [lit "DATES:"; Eol])].

(** /DATES:\s*(.+?)(?=ACTIONS:|$)/s *)
Definition datesPattern : regex :=
  seq [lit "DATES:"; star space; Grp 1 (lazyPlus dotAll);
       Look (alt [lit "ACTIONS:"; Eol])].

(** /ACTIONS:\s*(.+?)$/s *)
Definition actionsPattern : regex :=
  seq [lit "ACTIONS:"; star space; Grp 1 (lazyPlus dotAll); Eol].

(** /TRANSCRIPT:\s*(.+)$/s *)
Definition transcriptPattern : regex :=
  seq [lit "TRANSCRIPT:"; star space; Grp 1 (plus dotAll); Eol].

(** A match array as far as it is used: [None] is [null], the inner option
    is element [1] of the array. *)
Definition MatchArray : Type := option (option string).

Definition matchSection (r : regex) (response : string) : MatchArray :=
  (fun m => group response m 1) <$> exec r response.

Definition nonEmpty (s : string) : bool :=
  negb (String.eqb s EmptyString).

(** The hybrid enhancement: the dates found by [dateRegex] in the
    conversation are merged into the DATES section of the response. *)
Definition hybridDates (conversationText : string) (datesMatch : MatchArray)
  : Result MatchArray :=
  match uniqueRegexDates conversationText with
  | Some uniqueRegexDates =>
      combinedDates <-
        match datesMatch with
        | Some g =>
            g1 <- required g ;;
            let existingDates := trim g1 in
            if includes (toLowerCase existingDates) "none"
            then ret (join ", " uniqueRegexDates)
            else
              let existingDateArray :=
                filter (fun d => nonEmpty d)
                  (map trim (split (chr ",") existingDates)) in
              ret (join ", "
                     (uniq [] (existingDateArray ++ uniqueRegexDates)%list))
        | None => ret (join ", " uniqueRegexDates)
        end ;;
      if nonEmpty combinedDates then ret (Some (Some combinedDates))
      else ret datesMatch
  | None => ret datesMatch
  end.

(** The visitor named by the VISITOR section; [None] when the stored
    visitor is kept. *)
Definition extractVisitor (visitorMatch : MatchArray)
  : Result (option VisitorInfo) :=
  match visitorMatch with
  | Some g =>
      g1 <- required g ;;
      let visitorText := trim g1 in
      if includes (toLowerCase visitorText) "unknown" then ret None
      else
        let parts := split (chr ",") visitorText in
        n <- required (parts !! 0%nat) ;;
        rel <- (if includes visitorText ","
                then r <- required (parts !! 1%nat) ;; ret (trim r)
                else ret "visitor") ;;
        ret (Some (MkVisitor (trim n) rel))
  | None => ret None
  end.

End Response.

(** ** EventReconciler: persisting the mentions of a response *)

Module Reconciler.
Import JsString Regex JsDate DateParser Response.

Inductive EventType : Type := meeting | appointment | reminder.

(** A record of the [dates] object store. [date] holds the time value that
    the source stores in ISO 8601 form. *)
Record ImportantDate : Type := MkDate {
  id : string;
  date : Date;
  event : string;
  type : EventType;
  createdAt : Date
}.

(** The [dates] store, keyed by [id], and the number of ids drawn so far. *)
Record Db : Type := MkDb {
  dates : gmap string ImportantDate;
  drawn : nat
}.

(** The members of the class [üìÖ‚úÖ] that lie in the modelled range of
    code units: u-umlaut, i-grave, O-umlaut, u-acute. *)
Definition isMarkerChar (c : ascii) : bool :=
  ((code c =? 252) || (code c =? 236) || (code c =? 214) || (code c =? 250))%N.

(** /^-\s*|^[üìÖ‚úÖ]\s*/ *)
Definition bulletPattern : regex :=
  alt [seq [Bol; chr "-"; star space];
       seq [Bol; Chr isMarkerChar; star space]].

(** The label of a mention line: [line.replace(bulletPattern, '').trim()] *)
Definition cleanLabel (line : string) : string :=
  trim (removeFirst bulletPattern line).

(** [text.split(/\n|,/).filter(l => l.trim())] *)
Definition mentionLines (text : string) : list string :=
  filter (fun l => nonEmpty (trim l)) (split (alt [chr "010"; chr ","]) text).

Section Persist.

(** [generateId()] draws from a supply of ids: the result of the n-th call. *)
Variable idSupply : nat -> string.
Variable Date_parse : string -> option Date.
(** The clock read by [parseDateFromText] during the pass. *)
Variable now : Date.

Definition generateId (db : Db) : string * Db :=
  (idSupply (drawn db), MkDb (dates db) (S (drawn db))).

(** [db.add('dates', d)]: rejected when the key is already present. *)
Definition addDate (d : ImportantDate) (db : Db) : Result unit * Db :=
  match dates db !! id d with
  | Some _ => (throw (Thrown (Some "ConstraintError")), db)
  | None => (ret tt, MkDb (<[id d := d]> (dates db)) (drawn db))
  end.

(** The callback run for one mention line. A failure of [addDate] is logged
    (dates) or left unhandled (actions); either way the pass goes on. *)
Definition saveMention (ty : EventType) (db : Db) (line : string) : Db :=
  let cleaned := cleanLabel line in
  match parseDateFromText Date_parse cleaned now with
  | inl _ => db
  | inr parsedDate =>
      let '(newId, db) := generateId db in
      snd (addDate (MkDate newId parsedDate cleaned ty parsedDate) db)
  end.

(** The body of [if (datesMatch)] and of [if (actionsMatch)]. *)
Definition persistMentions (ty : EventType) (m : MatchArray) (db : Db)
  : Result Db :=
  match m with
  | Some g =>
      g1 <- required g ;;
      let mentionsText := trim g1 in
      if nonEmpty mentionsText
         && negb (includes (toLowerCase mentionsText) "none")
      then ret (fold_left (saveMention ty) (mentionLines mentionsText) db)
      else ret db
  | None => ret db
  end.

(** The reconciliation pass of [analyzeConversation] on a response: dates
    (merged with the regex dates of the conversation) as appointments, then
    actions as reminders. *)
Definition reconcile (conversationText response : string) (db : Db)
  : Result Db :=
  datesMatch <- hybridDates conversationText
                  (matchSection datesPattern response) ;;
  db <- persistMentions appointment datesMatch db ;;
  persistMentions reminder (matchSection actionsPattern response) db.

End Persist.

End Reconciler.

(** ** Post-hoc changes of recorded turns *)

Module Transcript.
Import JsString Regex DateParser Conversation Response.

(** The effect run when [visitorInfo] changes: past "Visitor" labels take
    the visitor's name. *)
Definition relabelVisitor (visitorInfo : option VisitorInfo)
  (prev : list ConversationEntry) : list ConversationEntry :=
  match visitorInfo with
  | Some v =>
      if nonEmpty (name v) && negb (String.eqb (name v) "the visitor")
      then map (fun entry =>
                  MkEntry (if String.eqb (speaker entry) "Visitor"
                           then name v else speaker entry)
                    (text entry) (timestamp entry))
             prev
      else prev
  | None => prev
  end.

(** The pattern [^(.+?):\s*Q(G)Q$] where Q is the double quote character
    and G is a greedy run of any characters but line terminators. *)
Definition linePattern : regex :=
  seq [Bol; Grp 1 (lazyPlus dot); chr ":"; star space; chr "034";
       Grp 2 (star dot); chr "034"; Eol].

(** The body of [transcriptLines.forEach((line, idx) => ...)]. *)
Definition correctLine (next : list ConversationEntry)
  (item : nat * string) : Result (list ConversationEntry) :=
  let '(idx, line) := item in
  match next !! idx with
  | Some entry =>
      match exec linePattern line with
      | Some m =>
          g1 <- required (group line m 1) ;;
          g2 <- required (group line m 2) ;;
          ret (<[idx := MkEntry (trim g1) (trim g2) (timestamp entry)]> next)
      | None => ret next
      end
  | None => ret next
  end.

(** Transcript correction: the TRANSCRIPT section of the response rewrites
    the turns position by position. *)
Definition correctTranscript (response : string)
  (prev : list ConversationEntry) : Result (list ConversationEntry) :=
  match matchSection transcriptPattern response with
  | Some g =>
      g1 <- required g ;;
      let transcriptLines := split (chr "010") (trim g1) in
      foldM correctLine prev (imap (fun idx line => (idx, line))
                                transcriptLines)
  | None => ret prev
  end.

End Transcript.

(** * Properties *)

(** ** The matcher sets the groups a pattern must set *)

Module RegexFacts.
Import JsString Regex.

(** What a successful run from [x] guarantees about the state [y] handed to
    the continuation: the groups in [ms] are set, those outside [gs] are as
    they were. *)
Definition reaches (ms gs : list nat) (x y : mstate) : Prop :=
  (∀ n, n ∈ ms → is_Some (caps y !! n))
  ∧ (∀ n, n ∉ gs → caps y !! n = caps x !! n).

Definition sound (m : (mstate → option mstate) → mstate → option mstate)
  (ms gs : list nat) : Prop :=
  ∀ k x z, m k x = Some z → ∃ y, k y = Some z ∧ reaches ms gs x y.

Lemma reaches_refl gs x : reaches [] gs x x.
Proof. split; [intros n Hn; inversion Hn | done]. Qed.

Lemma clearCaps_other ns x n : n ∉ ns → caps (clearCaps ns x) !! n = caps x !! n.
Proof.
  intros Hn. unfold clearCaps. simpl.
  induction ns as [|a ns IH]; simpl; [done|].
  rewrite lookup_delete_ne; [apply IH | ]; set_solver.
Qed.

Lemma orElse_Some {A} (a b : option A) z :
  orElse a b = Some z → a = Some z ∨ b = Some z.
Proof. destruct a; simpl; auto. Qed.

Lemma repLoop_sound m gs greedy ms :
  sound m ms gs → ∀ n lo, sound (repLoop m gs greedy n lo) [] gs.
Proof.
  intros Hm n. induction n as [|n IH]; intros lo k x z H; simpl in H.
  - exists x. split; [done | apply reaches_refl].
  - assert (Hiter : m (λ y, if (lo =? 0)%nat && (pos y =? pos x)%nat then None
                            else repLoop m gs greedy n (Nat.pred lo) k y)
                      (clearCaps gs x) = Some z
                    → ∃ y, k y = Some z ∧ reaches [] gs x y).
    { intros H1. apply Hm in H1 as (y1 & Hd & _ & Hfr1).
      destruct ((lo =? 0)%nat && (pos y1 =? pos x)%nat); [done|].
      apply IH in Hd as (y & Hk & _ & Hfr).
      exists y. split; [done|]. split; [intros ? Hn; inversion Hn|].
      intros j Hj. rewrite Hfr, Hfr1 by done. by apply clearCaps_other. }
    destruct (0 <? lo)%nat; [by apply Hiter|].
    destruct greedy; apply orElse_Some in H as [H|H]; auto;
      exists x; (split; [done | apply reaches_refl]).
Qed.

Lemma must_groups r n : n ∈ must r → n ∈ groups r.
Proof.
  induction r as [| |r1 IH1 r2 IH2| | |j r IH| | | |]; simpl; intros Hn;
    try (by inversion Hn).
  - apply elem_of_app in Hn as [Hn|Hn]; apply elem_of_app; auto.
  - apply elem_of_cons in Hn as [->|Hn]; apply elem_of_cons; auto.
Qed.

Lemma rmatch_sound r : NoDup (groups r) → sound (rmatch r) (must r) (groups r).
Proof.
  induction r as [|p|r1 IH1 r2 IH2|r1 IH1 r2 IH2|g lo hi r IH|n r IH|r IH| | |];
    intros Hnd k x z H; simpl in *.
  - exists x. split; [done | apply reaches_refl].
  - destruct (rest x) as [|c s']; [done|]. destruct (p c); [|done].
    eexists. split; [exact H|]. split; [intros ? Hn; inversion Hn | done].
  - apply NoDup_app in Hnd as (Hnd1 & Hdisj & Hnd2).
    apply IH1 in H as (y1 & H & Hm1 & Hf1); [|done].
    apply IH2 in H as (y2 & H & Hm2 & Hf2); [|done].
    exists y2. split; [done|]. split.
    + intros n [Hn|Hn]%elem_of_app; [|by apply Hm2].
      rewrite Hf2; [by apply Hm1|].
      apply Hdisj. by apply must_groups.
    + intros n Hn. rewrite Hf2, Hf1; set_solver.
  - apply NoDup_app in Hnd as (Hnd1 & _ & Hnd2).
    apply orElse_Some in H as [H|H];
      [apply IH1 in H as (y & H & _ & Hf) | apply IH2 in H as (y & H & _ & Hf)];
      try done; exists y; (split; [done|]);
      (split; [intros ? Hn; inversion Hn|]); intros n Hn; apply Hf; set_solver.
  - eapply repLoop_sound in H; [exact H | by apply IH].
  - apply NoDup_cons in Hnd as (Hn & Hnd).
    apply IH in H as (y & H & Hm & Hf); [|done].
    eexists. split; [exact H|]. split; simpl.
    + intros j [->|Hj]%elem_of_cons.
      * rewrite lookup_insert_eq. by eexists.
      * destruct (decide (n = j)) as [->|Hne].
        -- rewrite lookup_insert_eq. by eexists.
        -- rewrite lookup_insert_ne by done. by apply Hm.
    + intros j Hj. rewrite lookup_insert_ne by set_solver.
      apply Hf. set_solver.
  - destruct (rmatch r Some x) as [y'|] eqn:E; [|done].
    apply IH in E as (y & [= ->] & _ & Hf); [|done].
    eexists. split; [exact H|]. split; [intros ? Hn; inversion Hn|].
    simpl. exact Hf.
  - destruct (xorb _ _); [|done]. exists x. split; [done | apply reaches_refl].
  - destruct (pos x =? 0)%nat; [|done].
    exists x. split; [done | apply reaches_refl].
  - destruct (rest x); [|done]. exists x. split; [done | apply reaches_refl].
Qed.

Lemma matchAt_groups r p s i m n :
  NoDup (groups r) → n ∈ must r → matchAt r p s i = Some m →
  is_Some (mcaps m !! n).
Proof.
  intros Hnd Hn. unfold matchAt.
  destruct (rmatch r Some _) as [y|] eqn:E; [|done].
  intros [= <-]. simpl.
  apply rmatch_sound in E as (y' & [= ->] & Hm & _); [|done].
  by apply Hm.
Qed.

Lemma search_groups r n :
  NoDup (groups r) → n ∈ must r →
  ∀ s p i m, search r p s i = Some m → is_Some (mcaps m !! n).
Proof.
  intros Hnd Hn s. induction s as [|c s IH]; intros p i m; simpl.
  - destruct (matchAt r p EmptyString i) eqn:E; [|done].
    intros [= <-]. eapply matchAt_groups; eauto.
  - destruct (matchAt r p (String c s) i) eqn:E.
    + intros [= <-]. eapply matchAt_groups; eauto.
    + apply IH.
Qed.

(** Closed decidable side conditions, by evaluation. *)
Ltac by_decide := apply (bool_decide_unpack _); vm_compute; exact I.

(** Element [n] of the match array is defined when group [n] is one the
    pattern must set. *)
Lemma exec_group r s m n :
  NoDup (groups r) → n ∈ must r → exec r s = Some m →
  is_Some (group s m n).
Proof.
  intros Hnd Hn H. unfold group. destruct n as [|n]; [by eexists|].
  eapply search_groups in H as [[a b] Hab]; eauto.
  rewrite Hab. by eexists.
Qed.

End RegexFacts.

(** ** Calendar arithmetic *)

Module DateFacts.
Import JsDate.
Local Open Scope Z_scope.

Ltac split_leb :=
  repeat match goal with
         | |- context [?a <=? ?b] => destruct (Z.leb_spec a b)
         | |- context [?a <? ?b] => destruct (Z.ltb_spec a b)
         | |- context [?a =? ?b] => destruct (Z.eqb_spec a b)
         end.

(** [YearFromDay] is the year that contains the day. *)
Lemma YearFromDay_spec d :
  DayFromYear (YearFromDay d) <= d < DayFromYear (YearFromDay d + 1).
Proof.
  unfold YearFromDay. cbv zeta. split_leb;
    unfold DayFromYear in *; Z.div_mod_to_equations; lia.
Qed.

(** A year has 365 days, or 366 when it is a leap year. *)
Lemma DayFromYear_succ y :
  DayFromYear (y + 1) = DayFromYear y + (if InLeapYear y then 366 else 365).
Proof.
  unfold DayFromYear, InLeapYear.
  destruct (Z.eqb_spec (y mod 4) 0), (Z.eqb_spec (y mod 100) 0),
    (Z.eqb_spec (y mod 400) 0); simpl; Z.div_mod_to_equations; lia.
Qed.

Lemma DayWithinYear_range t :
  0 <= DayWithinYear t < (if InLeapYear (YearFromTime t) then 366 else 365).
Proof.
  unfold DayWithinYear, YearFromTime.
  pose proof (YearFromDay_spec (Day t)) as H.
  rewrite DayFromYear_succ in H. lia.
Qed.

Lemma MonthFromTime_range t : 0 <= MonthFromTime t <= 11.
Proof. unfold MonthFromTime. cbv zeta. split_leb; lia. Qed.

(** The day of the month lies between 1 and 31. *)
Lemma DateFromTime_range t : 1 <= DateFromTime t <= 31.
Proof.
  pose proof (DayWithinYear_range t) as H.
  unfold DateFromTime, MonthFromTime. cbv zeta.
  destruct (InLeapYear (YearFromTime t));
    repeat match goal with
           | |- context [DayWithinYear t <? ?b] =>
               destruct (Z.ltb_spec (DayWithinYear t) b)
           end;
    unfold monthStart in *; simpl in *; lia.
Qed.

Lemma MakeDay_in_year y m n :
  0 <= m <= 11 →
  MakeDay y m n = DayFromYear y + monthStart (InLeapYear y) m + n - 1.
Proof.
  intros Hm. unfold MakeDay. cbv zeta.
  rewrite (Z.div_small m 12), (Z.mod_small m 12), Z.add_0_r by lia.
  reflexivity.
Qed.

(** [d.setDate(d.getDate() + n)] moves [d] by [n] calendar days and keeps
    the time of day. *)
Lemma setDate_getDate_add d n : setDate d (getDate d + n) = addDays d n.
Proof.
  unfold setDate, getDate, addDays, MakeDate.
  rewrite MakeDay_in_year by apply MonthFromTime_range.
  unfold DateFromTime, DayWithinYear, Day, TimeWithinDay.
  pose proof (Z.div_mod d msPerDay) as H. unfold msPerDay in *. lia.
Qed.

Lemma getDay_addDays d n : getDay (addDays d n) = (getDay d + n) mod 7.
Proof.
  unfold getDay, WeekDay, addDays, Day.
  rewrite Z.div_add by (unfold msPerDay; lia).
  unfold msPerDay. Z.div_mod_to_equations. lia.
Qed.

Lemma getDay_range d : 0 <= getDay d < 7.
Proof. unfold getDay, WeekDay. apply Z.mod_pos_bound. lia. Qed.

End DateFacts.

(** ** DateExpressionParser *)

Module DateParserFacts.
Import JsString Regex JsDate DateParser RegexFacts DateFacts.
Local Open Scope Z_scope.

(** The relative keywords, in the order the parser tests them. *)
Definition relativeKeywords : list string :=
  ["today"; "tomorrow"; "day after tomorrow"; "next week"; "next month"].

(** Whether a text matches one of the recognised patterns: a relative
    keyword, a weekday name, "Month Day", "Day Month", or a date string
    the engine can parse. *)
Definition recognized (Date_parse : string → option Date) (text : string)
  : bool :=
  existsb (includes (toLowerCase text)) relativeKeywords
  || existsb (includes (toLowerCase text)) dayNames
  || bool_decide (is_Some (exec monthDayPattern text))
  || bool_decide (is_Some (exec dayMonthPattern text))
  || bool_decide (is_Some (Date_parse text)).

(** The number of days from weekday [currentDay] to the next day with
    index [i], as the parser computes it. *)
Definition daysUntil (i currentDay : Z) : Z :=
  if i - currentDay <=? 0 then i - currentDay + 7 else i - currentDay.

Section Facts.

Variable Date_parse : string → option Date.

Lemma monthDayBranch_returns text now :
  ∃ r, monthDayBranch text now = inr r.
Proof.
  unfold monthDayBranch. destruct (exec monthDayPattern text) as [m|] eqn:E;
    [|by eexists].
  eapply (exec_group _ _ _ 1%nat) in E as [g Hg].
  - rewrite Hg. simpl. by eexists.
  - by_decide.
  - by_decide.
Qed.

Lemma dayMonthBranch_returns text now :
  ∃ r, dayMonthBranch text now = inr r.
Proof.
  unfold dayMonthBranch. destruct (exec dayMonthPattern text) as [m|] eqn:E;
    [|by eexists].
  eapply (exec_group _ _ _ 2%nat) in E as [g Hg].
  - rewrite Hg. simpl. by eexists.
  - by_decide.
  - by_decide.
Qed.

Lemma findDay_none lower names i :
  existsb (includes lower) names = false → findDay lower names i = None.
Proof.
  revert i. induction names as [|n names IH]; intros i; simpl; [done|].
  intros [-> H]%orb_false_elim. by apply IH.
Qed.

(** The weekday branch, once no relative keyword occurs. *)
Lemma parseDateFromText_weekday text now i :
  existsb (includes (toLowerCase text)) relativeKeywords = false →
  findDay (toLowerCase text) dayNames 0 = Some i →
  parseDateFromText Date_parse text now
  = inr (addDays now (daysUntil i (getDay now))).
Proof.
  unfold relativeKeywords, existsb, parseDateFromText. cbv zeta.
  intros H Hday.
  repeat apply orb_false_elim in H as [-> H].
  rewrite Hday. unfold ret. f_equal.
  rewrite <- setDate_getDate_add. reflexivity.
Qed.

Lemma daysUntil_next i c :
  0 <= i < 7 → 0 <= c < 7 →
  1 <= daysUntil i c <= 7
  ∧ (c + daysUntil i c) mod 7 = i
  ∧ (∀ j, 1 <= j < daysUntil i c → (c + j) mod 7 ≠ i)
  ∧ (c = i → daysUntil i c = 7).
Proof.
  intros Hi Hc. unfold daysUntil.
  destruct (Z.leb_spec (i - c) 0); repeat split; try lia;
    try (intros j Hj); Z.div_mod_to_equations; lia.
Qed.

(** C2 (as the code behaves): the text "day after tomorrow" contains
    "tomorrow", which the parser tests first, so it resolves to the day
    after [now], one day and not two; the branch written for "day after
    tomorrow" is never reached. *)
Theorem day_after_tomorrow_resolves_one_day_ahead (now : Date) :
  parseDateFromText Date_parse "day after tomorrow" now = inr (addDays now 1)
  ∧ addDays now 1 ≠ addDays now 2.
Proof.
  split.
  - unfold parseDateFromText. cbv zeta.
    change (toLowerCase "day after tomorrow") with "day after tomorrow"%string.
    change (includes "day after tomorrow" "today") with false.
    change (includes "day after tomorrow" "tomorrow") with true.
    cbv iota. unfold ret. f_equal. apply setDate_getDate_add.
  - unfold addDays, msPerDay. lia.
Qed.

(** C5: a bare weekday name, in any letter case, resolves to [now] moved
    forward by [k] days with [1 <= k <= 7], where day [k] is the first day
    after [now] that falls on the named weekday; when [now] itself falls on
    that weekday, [k] is 7. *)
Theorem weekday_resolves_to_next_occurrence
  (now : Date) (i : nat) (name text : string) :
  dayNames !! i = Some name →
  toLowerCase text = name →
  ∃ k : Z,
    1 <= k <= 7
    ∧ parseDateFromText Date_parse text now = inr (addDays now k)
    ∧ getDay (addDays now k) = Z.of_nat i
    ∧ (∀ j, 1 <= j < k → getDay (addDays now j) ≠ Z.of_nat i)
    ∧ (getDay now = Z.of_nat i → k = 7).
Proof.
  intros Hname Hlower.
  assert (Hi : 0 <= Z.of_nat i < 7).
  { apply lookup_lt_Some in Hname. simpl in Hname. lia. }
  pose proof (getDay_range now) as Hc.
  destruct (daysUntil_next (Z.of_nat i) (getDay now) Hi Hc)
    as (Hk & Hhit & Hfirst & Hsame).
  exists (daysUntil (Z.of_nat i) (getDay now)).
  split; [exact Hk|]. split; [|split; [|split]].
  - apply parseDateFromText_weekday; rewrite Hlower;
      do 7 (destruct i as [|i]; [injection Hname as <-; reflexivity|]);
      discriminate Hname.
  - rewrite getDay_addDays. exact Hhit.
  - intros j Hj. rewrite getDay_addDays. by apply Hfirst.
  - exact Hsame.
Qed.

(** The parser never throws. *)
Lemma parseDateFromText_returns text now :
  ∃ d, parseDateFromText Date_parse text now = inr d.
Proof.
  unfold parseDateFromText. cbv zeta.
  repeat (destruct (includes _ _); [by eexists|]).
  destruct (findDay _ _ _); [by eexists|].
  destruct (monthDayBranch_returns text now) as [r1 ->]. simpl.
  destruct r1; [by eexists|].
  destruct (dayMonthBranch_returns text now) as [r2 ->]. simpl.
  destruct r2; [by eexists|].
  destruct (Date_parse text); by eexists.
Qed.

Lemma parseDateFromText_unrecognized text now :
  recognized Date_parse text = false →
  parseDateFromText Date_parse text now = inr now.
Proof.
  unfold recognized. intros H.
  apply orb_false_elim in H as [H Hparse].
  apply orb_false_elim in H as [H Hdm].
  apply orb_false_elim in H as [H Hmd].
  apply orb_false_elim in H as [Hrel Hday].
  apply bool_decide_eq_false, eq_None_not_Some in Hparse, Hdm, Hmd.
  unfold parseDateFromText, monthDayBranch, dayMonthBranch. cbv zeta.
  unfold relativeKeywords, existsb in Hrel.
  repeat apply orb_false_elim in Hrel as [-> Hrel].
  rewrite (findDay_none _ _ _ Hday), Hmd, Hdm, Hparse. reflexivity.
Qed.

(** C6: the parser returns a date for every text and never throws, and a
    text that matches none of the recognised patterns resolves to [now]. *)
Theorem parseDateFromText_total_and_falls_back (text : string) (now : Date) :
  (∃ d, parseDateFromText Date_parse text now = inr d)
  ∧ (recognized Date_parse text = false →
     parseDateFromText Date_parse text now = inr now).
Proof.
  split; [apply parseDateFromText_returns|].
  apply parseDateFromText_unrecognized.
Qed.

End Facts.

Lemma weekday_resolves_to_next_occurrence_witness :
  ∃ k : Z,
    1 <= k <= 7
    ∧ parseDateFromText (λ _, None) "Monday" 1771239600000
      = inr (addDays 1771239600000 k)
    ∧ getDay (addDays 1771239600000 k) = Z.of_nat 1
    ∧ (∀ j, 1 <= j < k → getDay (addDays 1771239600000 j) ≠ Z.of_nat 1)
    ∧ (getDay 1771239600000 = Z.of_nat 1 → k = 7).
Proof.
  apply (weekday_resolves_to_next_occurrence (λ _, None) 1771239600000 1 "monday" "Monday");
    reflexivity.
Defined.

Lemma parseDateFromText_total_and_falls_back_witness :
  parseDateFromText (λ _, None) "sometime soon" 1771239600000
  = inr 1771239600000.
Proof.
  apply (proj2 (parseDateFromText_total_and_falls_back (λ _, None)
                  "sometime soon"
                  1771239600000)).
  vm_compute. reflexivity.
Defined.

End DateParserFacts.

(** ** HeuristicExtractor *)

Module HeuristicFacts.
Import JsString Heuristic.

(** The text of a task that carries the given kind marker. *)
Definition stripMarker (marker task : string) : option string :=
  if startsWith task marker then Some (dropN (String.length marker) task)
  else None.

Definition dateMentions (tasks : list string) : list string :=
  omap (stripMarker dateMarker) tasks.

Definition actionMentions (tasks : list string) : list string :=
  omap (stripMarker actionMarker) tasks.

(** C7: on "Remind me to take my pills and see the doctor on Friday" the
    extractor, both while listening and when listening stops, yields two
    tasks: an action mention with the text "take my pills" and a date
    mention with the text "see the doctor on Friday", each behind its kind
    marker. *)
Theorem extract_pills_and_doctor :
  ∃ tasks,
    extractTasks "Remind me to take my pills and see the doctor on Friday"
    = inr tasks
    ∧ extractTasksOnStop
        ["Remind me to take my pills and see the doctor on Friday"]
      = inr tasks
    ∧ tasks = [actionMarker ++ "take my pills";
               dateMarker ++ "see the doctor on Friday"]
    ∧ actionMentions tasks = ["take my pills"]
    ∧ (∃ a, a ∈ actionMentions tasks ∧ includes a "take my pills" = true)
    ∧ dateMentions tasks = ["see the doctor on Friday"].
Proof.
  eexists. split; [vm_compute; reflexivity|].
  split; [vm_compute; reflexivity|].
  split; [vm_compute; reflexivity|].
  split; [vm_compute; reflexivity|].
  split; [|vm_compute; reflexivity].
  exists "take my pills". split; [|reflexivity].
  vm_compute. apply list_elem_of_here.
Qed.

End HeuristicFacts.

(** ** The model tiers *)

Module TierFacts.
Import JsString Regex Gemini Conversation.

Definition configured {A} (o : option A) : bool :=
  match o with Some _ => true | None => false end.

Definition failed {A} (r : Result A) : bool :=
  match r with inl _ => true | inr _ => false end.

(** Number of calls of tier [t] in a call log. *)
Definition calls (t : Tier) (log : list Tier) : nat :=
  length (filter (λ t', t' = t) log).

(** Whether a failure is classified as rate limiting: its message contains
    429 or, in any letter case, the word quota. *)
Definition matchesRateLimit (e : JsError) : bool := truthy (quotaTest e).

Section Scene.

Variable JSON_parse : string → Result (gmap string JsValue).
Variables (imageBase64 history : string).

Local Abbreviation executeAnalysis :=
  (executeAnalysis JSON_parse imageBase64 history).
Local Abbreviation analyzeScene :=
  (analyzeScene JSON_parse imageBase64 history).

(** What one tier's attempt yields. *)
Definition attempt (t : Tier) (model : option Model)
  : Result (option (gmap string JsValue)) :=
  fst (executeAnalysis t model []).

Lemma executeAnalysis_run t model log :
  executeAnalysis t model log
  = (attempt t model,
     (log ++ if configured model then [t] else [])%list).
Proof.
  unfold attempt, Gemini.executeAnalysis.
  destruct model as [m|]; simpl; [|by rewrite app_nil_r].
  unfold bind_run, generateContent. simpl.
  destruct (m _) as [e|text]; [done|].
  destruct (exec jsonPattern text); [|done].
  unfold lift_run. destruct (JSON_parse _); done.
Qed.

(** The four ways through [analyzeScene]. *)
Lemma analyzeScene_primary_ok p b log r :
  attempt Primary p = inr r →
  analyzeScene p b log
  = (inr r, (log ++ if configured p then [Primary] else [])%list).
Proof.
  intros H. unfold Gemini.analyzeScene, try_catch.
  by rewrite executeAnalysis_run, H.
Qed.

Lemma attempt_failed_configured t p e :
  attempt t p = inl e → configured p = true.
Proof. by destruct p. Qed.

Lemma analyzeScene_no_backup p log e1 :
  attempt Primary p = inl e1 →
  analyzeScene p None log
  = (inr (Some (primaryFailed (quotaTest e1) e1)), (log ++ [Primary])%list).
Proof.
  intros H. unfold Gemini.analyzeScene, try_catch.
  by rewrite executeAnalysis_run, H, (attempt_failed_configured _ _ _ H).
Qed.

Lemma analyzeScene_backup_ok p b log e1 r :
  attempt Primary p = inl e1 → configured b = true →
  attempt Backup b = inr r →
  analyzeScene p b log
  = (inr (Some (<["usedBackup" := JBool true]> (default ∅ r))),
     (log ++ [Primary; Backup])%list).
Proof.
  intros H1 Hb H2. unfold Gemini.analyzeScene, try_catch, bind_run.
  rewrite executeAnalysis_run, H1, (attempt_failed_configured _ _ _ H1).
  destruct b as [bm|]; [|done].
  rewrite executeAnalysis_run, H2. simpl. by rewrite <- app_assoc.
Qed.

Lemma analyzeScene_both_failed p b log e1 e2 :
  attempt Primary p = inl e1 → attempt Backup b = inl e2 →
  analyzeScene p b log
  = (inr (Some (allFailed (quotaTest e1) e2)),
     (log ++ [Primary; Backup])%list).
Proof.
  intros H1 H2. unfold Gemini.analyzeScene, try_catch, bind_run.
  rewrite executeAnalysis_run, H1, (attempt_failed_configured _ _ _ H1).
  pose proof (attempt_failed_configured _ _ _ H2) as Hb.
  destruct b as [bm|]; [|done].
  rewrite executeAnalysis_run, H2. simpl. by rewrite <- app_assoc.
Qed.

Lemma quotaTest_cases e :
  quotaTest e = JUndefined ∨ ∃ b, quotaTest e = JBool b.
Proof. unfold quotaTest. destruct (message e); eauto. Qed.

Lemma jsOr_quota e1 e2 :
  jsOr (quotaTest e1) (quotaTest e2) = JBool true
  ↔ matchesRateLimit e1 = true ∨ matchesRateLimit e2 = true.
Proof.
  unfold matchesRateLimit, jsOr.
  destruct (quotaTest_cases e1) as [->|[[] ->]],
    (quotaTest_cases e2) as [->|[[] ->]]; simpl;
    intuition (auto; discriminate).
Qed.

Lemma quota_true e : quotaTest e = JBool true ↔ matchesRateLimit e = true.
Proof.
  unfold matchesRateLimit.
  destruct (quotaTest_cases e) as [->|[[] ->]]; simpl;
    intuition (auto; discriminate).
Qed.

(** C1 (amended): on the error paths of [analyzeScene] the flag
    [isQuotaExceeded] is true exactly when the failure of an attempted tier
    matched the rate-limit pattern. When the backup succeeds after a primary
    failure, the result is the backup's object with [usedBackup] set and
    [analyzeScene] writes no flag: the property is whatever the backup's
    object holds. *)
Theorem quota_flag_on_error_paths p b log e1 :
  attempt Primary p = inl e1 →
  (b = None →
   ∃ obj, fst (analyzeScene p b log) = inr (Some obj)
     ∧ (getProp obj "isQuotaExceeded" = JBool true
        ↔ matchesRateLimit e1 = true))
  ∧ (∀ e2, attempt Backup b = inl e2 →
     ∃ obj, fst (analyzeScene p b log) = inr (Some obj)
       ∧ (getProp obj "isQuotaExceeded" = JBool true
          ↔ matchesRateLimit e1 = true ∨ matchesRateLimit e2 = true))
  ∧ (∀ r, configured b = true → attempt Backup b = inr r →
     ∃ obj, fst (analyzeScene p b log) = inr (Some obj)
       ∧ obj = <["usedBackup" := JBool true]> (default ∅ r)
       ∧ getProp obj "isQuotaExceeded"
         = getProp (default ∅ r) "isQuotaExceeded").
Proof.
  intros H1. split; [|split].
  - intros ->. rewrite (analyzeScene_no_backup _ _ _ H1). simpl.
    eexists. split; [done|].
    unfold getProp, primaryFailed. simpl.
    rewrite !lookup_insert_ne, lookup_insert_eq by done. simpl.
    apply quota_true.
  - intros e2 H2. rewrite (analyzeScene_both_failed _ _ _ _ _ H1 H2). simpl.
    eexists. split; [done|].
    unfold getProp, allFailed. simpl.
    rewrite !lookup_insert_ne, lookup_insert_eq by done. simpl.
    apply jsOr_quota.
  - intros r Hb H2. rewrite (analyzeScene_backup_ok _ _ _ _ _ H1 Hb H2). simpl.
    eexists. split; [done|]. split; [done|].
    unfold getProp. by rewrite lookup_insert_ne.
Qed.

(** C10: when [analyzeScene] returns through an error path (the primary
    failed and there is no backup, or both models failed), the object it
    returns reports no person, no name, no relation and no nudges. *)
Theorem failed_scene_reports_nobody p b log e1 :
  attempt Primary p = inl e1 →
  b = None ∨ (∃ e2, attempt Backup b = inl e2) →
  ∃ obj, fst (analyzeScene p b log) = inr (Some obj)
    ∧ getProp obj "personIdentified" = JBool false
    ∧ getProp obj "name" = JNull
    ∧ getProp obj "relation" = JNull
    ∧ getProp obj "nudges" = JArr [].
Proof.
  intros H1 [->|[e2 H2]].
  - rewrite (analyzeScene_no_backup _ _ _ H1). simpl.
    eexists. split; [done|]. unfold getProp, primaryFailed. simpl.
    repeat split;
      repeat (rewrite lookup_insert_eq || rewrite lookup_insert_ne by done);
      done.
  - rewrite (analyzeScene_both_failed _ _ _ _ _ H1 H2). simpl.
    eexists. split; [done|]. unfold getProp, allFailed. simpl.
    repeat split;
      repeat (rewrite lookup_insert_eq || rewrite lookup_insert_ne by done);
      done.
Qed.

(** The calls [analyzeScene] makes. *)
Lemma analyzeScene_calls p b log :
  snd (analyzeScene p b log)
  = (log ++ if configured p
            then Primary :: (if failed (attempt Primary p) && configured b
                             then [Backup] else [])
            else [])%list.
Proof.
  destruct (attempt Primary p) as [e1|r] eqn:H1.
  - rewrite (attempt_failed_configured _ _ _ H1). simpl.
    destruct b as [bm|].
    + destruct (attempt Backup (Some bm)) as [e2|r] eqn:H2.
      * by rewrite (analyzeScene_both_failed _ _ _ _ _ H1 H2).
      * by rewrite (analyzeScene_backup_ok _ (Some bm) _ _ _ H1 eq_refl H2).
    + by rewrite (analyzeScene_no_backup _ _ _ H1).
  - by rewrite (analyzeScene_primary_ok _ _ _ _ H1).
Qed.

End Scene.

(** *** Concrete runs *)

(** A rate-limit failure as the service reports it. *)
Definition quotaError : JsError :=
  Thrown (Some "[429 Too Many Requests] Resource has been exhausted (e.g. check quota).").

Definition quotaModel : Model := λ _, inl quotaError.

(** A response that holds a JSON object, and the object it parses to. *)
Definition nobodyText : string :=
  "{" ++ quoted "personIdentified" ++ ": false, " ++ quoted "summary" ++ ": "
  ++ quoted "No one is visible" ++ "}".

Definition nobodyObject : gmap string JsValue :=
  list_to_map [("personIdentified", JBool false);
               ("summary", JStr "No one is visible")].

Definition nobodyModel : Model := λ _, inr nobodyText.

Definition parseNobody (s : string) : Result (gmap string JsValue) :=
  if String.eqb s nobodyText then inr nobodyObject
  else inl (Thrown (Some "Unexpected token")).

(** C1 (counterexample): the primary fails with a rate-limit error, the
    backup succeeds; the failure matches the pattern, yet the result carries
    no [isQuotaExceeded] flag. *)
Lemma quota_flag_absent_when_backup_succeeds :
  attempt parseNobody "/9j/4AAQSkZJRg==" "No history yet." Primary (Some quotaModel) = inl quotaError
  ∧ matchesRateLimit quotaError = true
  ∧ ∃ obj,
      fst (analyzeScene parseNobody "/9j/4AAQSkZJRg==" "No history yet." (Some quotaModel) (Some nobodyModel)
             [])
      = inr (Some obj)
      ∧ getProp obj "usedBackup" = JBool true
      ∧ getProp obj "isQuotaExceeded" = JUndefined
      ∧ ¬ (getProp obj "isQuotaExceeded" = JBool true
           ↔ matchesRateLimit quotaError = true).
Proof.
  split; [reflexivity|]. split; [vm_compute; reflexivity|].
  eexists. split; [vm_compute; reflexivity|].
  split; [vm_compute; reflexivity|].
  split; [vm_compute; reflexivity|].
  intros [_ H]. specialize (H ltac:(vm_compute; reflexivity)).
  vm_compute in H. discriminate H.
Qed.

Lemma quota_flag_on_error_paths_witness :
  ∃ obj,
    fst (analyzeScene parseNobody "/9j/4AAQSkZJRg==" "No history yet." (Some quotaModel) None [])
    = inr (Some obj)
    ∧ (getProp obj "isQuotaExceeded" = JBool true
       ↔ matchesRateLimit quotaError = true).
Proof.
  apply (proj1 (quota_flag_on_error_paths parseNobody "/9j/4AAQSkZJRg==" "No history yet."
                  (Some quotaModel) None [] quotaError eq_refl)).
  reflexivity.
Defined.

Lemma failed_scene_reports_nobody_witness :
  ∃ obj,
    fst (analyzeScene parseNobody "/9j/4AAQSkZJRg==" "No history yet." (Some quotaModel) (Some quotaModel) [])
    = inr (Some obj)
    ∧ getProp obj "personIdentified" = JBool false
    ∧ getProp obj "name" = JNull
    ∧ getProp obj "relation" = JNull
    ∧ getProp obj "nudges" = JArr [].
Proof.
  apply (failed_scene_reports_nobody parseNobody "/9j/4AAQSkZJRg==" "No history yet." (Some quotaModel)
           (Some quotaModel) [] quotaError eq_refl).
  right. exists quotaError. reflexivity.
Defined.

(** *** The tiers of [analyzeConversation] *)

(** The reply of the primary model to the conversation prompt, when the
    guard of [analyzeConversation] lets the call happen. *)
Definition conversationAttempt (primaryModel : option Model)
  (patientName : string) (convos : list ConversationEntry)
  (visitorInfo : option VisitorInfo) (isProcessing : bool)
  : option (Result string) :=
  match primaryModel with
  | Some primary =>
      if (length convos =? 0)%nat || isProcessing then None
      else Some (primary
                   (MkRequest
                      (conversationPrompt patientName
                         (strOr (name <$> visitorInfo) "the visitor")
                         (strOr (relation <$> visitorInfo) "someone")
                         (transcriptText LF convos))
                      None))
  | None => None
  end.

Definition attemptFailed {A} (o : option (Result A)) : bool :=
  match o with Some (inl _) => true | _ => false end.

Lemma analyzeConversation_calls p b patientName convos visitorInfo
  isProcessing log :
  snd (analyzeConversation_response p b patientName convos visitorInfo
         isProcessing log)
  = (log ++ match conversationAttempt p patientName convos visitorInfo
                    isProcessing with
            | Some r => Primary :: (if failed r && configured b
                                    then [Backup] else [])
            | None => []
            end)%list.
Proof.
  unfold analyzeConversation_response, conversationAttempt.
  destruct p as [pm|]; simpl; [|by rewrite app_nil_r].
  destruct ((length convos =? 0)%nat || isProcessing); simpl;
    [by rewrite app_nil_r|].
  unfold bind_run, try_catch, generateContent.
  destruct (pm _) as [e1|r1]; simpl; [|done].
  destruct b as [bm|]; simpl; [|done].
  destruct (bm _); simpl; by rewrite <- app_assoc.
Qed.


(** C9: for every API key, the primary name "gemini-3-flash-preview" and
    the backup name "gemini-2.5-flash-lite" (also when it is the default
    argument) give the same handle, on the model "gemini-1.5-flash". *)
Theorem primary_and_backup_are_the_same_model (key : string) :
  getGeminiModel key (Some "gemini-3-flash-preview")
  = getGeminiModel key (Some "gemini-2.5-flash-lite")
  ∧ model (getGeminiModel key (Some "gemini-3-flash-preview"))
    = "gemini-1.5-flash"
  ∧ model (getGeminiModel key (Some "gemini-2.5-flash-lite"))
    = "gemini-1.5-flash"
  ∧ getGeminiModel key None
    = getGeminiModel key (Some "gemini-2.5-flash-lite").
Proof. repeat split. Qed.

End TierFacts.

(** ** Post-hoc changes of recorded turns *)

Module TranscriptFacts.
Import JsString Regex JsDate DateParser Conversation Response Transcript
  RegexFacts.

Lemma foldM_invariant {A B} (f : B → A → Result B) (P : B → Prop) l :
  (∀ b x, P b → ∃ b', f b x = inr b' ∧ P b') →
  ∀ b, P b → ∃ b', foldM f b l = inr b' ∧ P b'.
Proof.
  intros Hf. induction l as [|x l IH]; intros b Hb; simpl.
  - by exists b.
  - destruct (Hf b x Hb) as (b1 & -> & Hb1). simpl. by apply IH.
Qed.

Lemma correctLine_timestamps next item :
  ∃ next', correctLine next item = inr next'
    ∧ timestamp <$> next' = timestamp <$> next.
Proof.
  destruct item as [idx line]. unfold correctLine.
  destruct (next !! idx) as [entry|] eqn:Hidx; [|by eexists].
  destruct (exec linePattern line) as [m|] eqn:E; [|by eexists].
  pose proof E as E2.
  eapply (exec_group _ _ _ 1) in E as [g1 ->]; [|by_decide..].
  eapply (exec_group _ _ _ 2) in E2 as [g2 ->]; [|by_decide..].
  simpl. eexists. split; [reflexivity|].
  rewrite list_fmap_insert. simpl.
  apply list_insert_id. by rewrite list_lookup_fmap, Hidx.
Qed.

Lemma correctTranscript_timestamps response prev :
  ∃ next, correctTranscript response prev = inr next
    ∧ timestamp <$> next = timestamp <$> prev.
Proof.
  unfold correctTranscript, matchSection.
  destruct (exec transcriptPattern response) as [m|] eqn:E;
    cbn [fmap option_fmap option_map]; [|by eexists].
  eapply (exec_group _ _ _ 1) in E as [g1 ->]; [|by_decide..].
  cbn [required bind ret].
  apply (foldM_invariant correctLine
           (λ next, timestamp <$> next = timestamp <$> prev)); [|done].
  intros b x Hb. destruct (correctLine_timestamps b x) as (b' & -> & Hb').
  exists b'. split; [done|]. by rewrite Hb'.
Qed.

Lemma relabelVisitor_frame visitorInfo prev :
  text <$> relabelVisitor visitorInfo prev = text <$> prev
  ∧ timestamp <$> relabelVisitor visitorInfo prev = timestamp <$> prev.
Proof.
  unfold relabelVisitor. destruct visitorInfo as [v|]; [|done].
  destruct (nonEmpty (name v) && negb (String.eqb (name v) "the visitor"));
    [|done].
  split; rewrite <- list_fmap_compose; by apply list_fmap_ext.
Qed.



End TranscriptFacts.

(** ** EventReconciler *)

Module ReconcilerFacts.
Import JsString Regex JsDate DateParser Response Reconciler DateParserFacts.

(** The mention lines that form the batch of a DATES or ACTIONS section. *)
Definition batch (sectionText : string) : list string :=
  let mentionsText := trim sectionText in
  if nonEmpty mentionsText && negb (includes (toLowerCase mentionsText) "none")
  then mentionLines mentionsText else [].

(** The ids drawn for [n] mentions, starting from the state [db]. *)
Definition drawnIds (idSupply : nat → string) (db : Db) (n : nat)
  : list string :=
  idSupply <$> List.seq (drawn db) n.

Section Facts.

Variable idSupply : nat → string.
Variable Date_parse : string → option Date.
Variable now : Date.
Variable ty : EventType.

Local Abbreviation saveMention := (saveMention idSupply Date_parse now ty).

Lemma persistMentions_batch sectionText db :
  persistMentions idSupply Date_parse now ty (Some (Some sectionText)) db
  = inr (fold_left saveMention (batch sectionText) db).
Proof.
  unfold persistMentions, batch. simpl.
  by destruct (nonEmpty _ && negb _).
Qed.

Lemma saveMention_fresh db line :
  dates db !! idSupply (drawn db) = None →
  ∃ d, parseDateFromText Date_parse (cleanLabel line) now = inr d
    ∧ saveMention db line
      = MkDb (<[idSupply (drawn db) :=
                  MkDate (idSupply (drawn db)) d (cleanLabel line) ty d]>
                (dates db))
          (S (drawn db)).
Proof.
  intros Hfresh. unfold Reconciler.saveMention.
  destruct (parseDateFromText_returns Date_parse (cleanLabel line) now)
    as [d Hd].
  exists d. split; [done|]. rewrite Hd. simpl. unfold addDate. simpl.
  by rewrite Hfresh.
Qed.

(** With fresh ids, the pass stores one record per line, in order. *)
Lemma fold_saveMention lines :
  ∀ db,
    NoDup (drawnIds idSupply db (length lines)) →
    Forall (λ k, dates db !! k = None) (drawnIds idSupply db (length lines)) →
    let db' := fold_left saveMention lines db in
    drawn db' = (drawn db + length lines)%nat
    ∧ size (dates db') = (size (dates db) + length lines)%nat
    ∧ (∀ i line, lines !! i = Some line →
       ∃ d, parseDateFromText Date_parse (cleanLabel line) now = inr d
         ∧ dates db' !! idSupply (drawn db + i)
           = Some (MkDate (idSupply (drawn db + i)) d (cleanLabel line) ty d))
    ∧ (∀ k, k ∉ drawnIds idSupply db (length lines) →
       dates db' !! k = dates db !! k).
Proof.
  unfold drawnIds.
  induction lines as [|line lines IH]; intros db Hnd Hfr; simpl in *.
  - repeat split; try lia. intros i l H. by rewrite lookup_nil in H.
  - apply NoDup_cons in Hnd as [Hhd Hnd].
    apply Forall_cons in Hfr as [Hfr0 Hfr].
    destruct (saveMention_fresh db line Hfr0) as (d & Hd & ->).
    set (db1 := MkDb _ _).
    destruct (IH db1) as (Hdr & Hsz & Hrec & Hold).
    { exact Hnd. }
    { apply Forall_forall. intros k Hk. simpl.
      rewrite lookup_insert_ne; [|intros <-; by apply Hhd].
      by apply (proj1 (Forall_forall _ _) Hfr). }
    simpl in *. split; [lia|]. split.
    { rewrite Hsz, map_size_insert_None by done. lia. }
    split.
    + intros [|i] l Hl; simpl in Hl.
      * injection Hl as <-. exists d. split; [done|].
        rewrite Nat.add_0_r, Hold by done. apply lookup_insert_eq.
      * destruct (Hrec i l Hl) as (d' & Hd' & Hlk). exists d'.
        split; [done|]. by rewrite <- Nat.add_succ_comm.
    + intros k Hk. apply not_elem_of_cons in Hk as [Hne Hk].
      rewrite Hold by done. by apply lookup_insert_ne.
Qed.

End Facts.


(** *** A concrete batch *)

(** Ids "id-", "id-a", "id-ab", ... *)
Definition sampleId (n : nat) : string :=
  "id-" ++ takeN n "abcdefghijklmnopqrstuvwxyz".

Definition emptyDb : Db := MkDb ∅ 0.

(** A response whose DATES section names the same day twice, for a
    conversation in which [dateRegex] finds nothing. *)
Definition fridayConversation : string := "You: " ++ quoted "See you Friday".

Definition fridayResponse : string :=
  "VISITOR: Jane, Daughter" ++ LF ++ "SUMMARY: Jane will visit." ++ LF
  ++ "DATES: Friday, Friday" ++ LF ++ "ACTIONS: None".



End ReconcilerFacts.
